(** * camera_monitor.py: the Insta360 camera monitor, embedded and verified

    The script spawns [log stream], reads the child's standard output line
    by line, and prints a time-stamped status line for every line that names
    the device and an [addInput:] or [removeInput:] event.

    Text is represented as [string], a sequence of bytes holding the UTF-8
    encoding of the Python [str].  The three markers are ASCII, so a marker
    occurs in the byte sequence exactly where it occurs in the sequence of
    code points. *)

From Stdlib Require Import String Ascii List Arith Lia Bool.
Import ListNotations.

Local Open Scope list_scope.
Local Open Scope string_scope.

(** ** Substring containment: Python's [needle in haystack] *)

(** [starts_with p s]: [s] begins with [p], compared character by character. *)
Fixpoint starts_with (p s : string) : bool :=
  match p, s with
  | EmptyString, _ => true
  | String _ _, EmptyString => false
  | String a p', String b s' => Ascii.eqb a b && starts_with p' s'
  end.

(** [contains p s] is [p in s]: [p] starts at some offset of [s]. *)
Fixpoint contains (p s : string) : bool :=
  starts_with p s ||
  match s with
  | EmptyString => false
  | String _ s' => contains p s'
  end.

(** The specification of containment: [p] occurs in [s] verbatim. *)
Definition Substring (p s : string) : Prop :=
  exists pre post : string, s = pre ++ p ++ post.

(** [not line]: a Python string is falsy exactly when it is empty. *)
Definition is_empty (s : string) : bool :=
  match s with
  | EmptyString => true
  | String _ _ => false
  end.

(** ** Local time and [strftime("%Y-%m-%d %H:%M:%S")] *)

(** The fields of the [datetime] that [datetime.now()] returns (the
    microsecond is not printed by the format and is left out). *)
Record datetime : Type := mkDatetime {
  year : nat;
  month : nat;
  day : nat;
  hour : nat;
  minute : nat;
  second : nat
}.

(** The range of the fields of a [datetime] ([MINYEAR] = 1, [MAXYEAR] = 9999). *)
Definition valid_datetime (t : datetime) : bool :=
  (1 <=? year t)%nat && (year t <? 10 ^ 4)%nat &&
  (1 <=? month t)%nat && (month t <=? 12)%nat &&
  (1 <=? day t)%nat && (day t <=? 31)%nat &&
  (hour t <=? 23)%nat && (minute t <=? 59)%nat && (second t <=? 59)%nat.

Definition digit (d : nat) : ascii := ascii_of_nat (48 + d).

(** [decimal n]: the decimal numeral of [n] without leading zeros. *)
Fixpoint decimal_aux (fuel n : nat) : string :=
  match fuel with
  | O => EmptyString
  | S fuel' =>
      (if (n <? 10)%nat then EmptyString else decimal_aux fuel' (n / 10))
      ++ String (digit (n mod 10)) EmptyString
  end.

Definition decimal (n : nat) : string := decimal_aux (S n) n.

Fixpoint zeros (k : nat) : string :=
  match k with
  | O => EmptyString
  | S k' => String "0" (zeros k')
  end.

(** [zfill width s]: [s] padded on the left with zeros to [width] characters
    (the C conversions [%02d] and [%04d] on a non-negative number). *)
Definition zfill (width : nat) (s : string) : string :=
  zeros (width - String.length s) ++ s.

(** [t.strftime("%Y-%m-%d %H:%M:%S")].  [%m %d %H %M %S] are two-digit
    zero-padded fields; [%Y] is the year, zero-padded to four digits by the
    BSD C library the script runs on (all C libraries agree from the year
    1000 on). *)
Definition strftime (t : datetime) : string :=
  zfill 4 (decimal (year t)) ++ "-" ++ zfill 2 (decimal (month t)) ++ "-" ++
  zfill 2 (decimal (day t)) ++ " " ++ zfill 2 (decimal (hour t)) ++ ":" ++
  zfill 2 (decimal (minute t)) ++ ":" ++ zfill 2 (decimal (second t)).

(** [fixed_digits k n]: the [k] low decimal digits of [n], most significant
    first; the meaning of the picture [YYYY] (k = 4) or [MM] (k = 2). *)
Fixpoint fixed_digits (k n : nat) : string :=
  match k with
  | O => EmptyString
  | S k' => fixed_digits k' (n / 10) ++ String (digit (n mod 10)) EmptyString
  end.

(** The picture [YYYY-MM-DD HH:MM:SS] filled in for [t]. *)
Definition timestamp_picture (t : datetime) : string :=
  fixed_digits 4 (year t) ++ "-" ++ fixed_digits 2 (month t) ++ "-" ++
  fixed_digits 2 (day t) ++ " " ++ fixed_digits 2 (hour t) ++ ":" ++
  fixed_digits 2 (minute t) ++ ":" ++ fixed_digits 2 (second t).

(** ** Events and their console lines, as the specification names them *)

Inductive event : Type := Started | Stopped.

(** The device-name marker and the two input markers. *)
Definition device_marker : string := "Insta360".
Definition add_marker : string := "addInput:".
Definition remove_marker : string := "removeInput:".

(** [classify], after the specification's words: a line with the device
    name and the input-added marker is [Started]; otherwise a line with the
    device name and the input-removed marker is [Stopped]; otherwise there
    is no event. *)
Definition classify (line : string) : option event :=
  if contains device_marker line && contains add_marker line then Some Started
  else if contains device_marker line && contains remove_marker line
       then Some Stopped
       else None.

(** The status glyphs: U+1F7E2 LARGE GREEN CIRCLE and U+1F534 LARGE RED
    CIRCLE, in UTF-8. *)
Definition green_glyph : string :=
  String (ascii_of_nat 240) (String (ascii_of_nat 159)
    (String (ascii_of_nat 159) (String (ascii_of_nat 162) EmptyString))).
Definition red_glyph : string :=
  String (ascii_of_nat 240) (String (ascii_of_nat 159)
    (String (ascii_of_nat 148) (String (ascii_of_nat 180) EmptyString))).

Definition glyph (e : event) : string :=
  match e with Started => green_glyph | Stopped => red_glyph end.
Definition status_word (e : event) : string :=
  match e with Started => "STARTED" | Stopped => "STOPPED" end.
Definition status_state (e : event) : string :=
  match e with Started => "Active" | Stopped => "Inactive" end.

(** The specification's template
    [[<timestamp>] <glyph> Camera <STARTED|STOPPED> (<Active|Inactive>)]. *)
Definition template (timestamp : string) (e : event) : string :=
  "[" ++ timestamp ++ "] " ++ glyph e ++ " Camera " ++ status_word e ++
  " (" ++ status_state e ++ ")".

(** ** The world the script runs in *)

(** Python exceptions, by the class the [except] clauses tell apart:
    [KeyboardInterrupt], any instance of [Exception] (with [str(e)]), and
    [SystemExit], a [BaseException] that neither clause matches. *)
Inductive exn : Type :=
| KeyboardInterrupt
| Exception (message : string)
| SystemExit (code : nat).

(** What one call of [process.stdout.readline()] does: it returns a string
    (the line with its newline, or the empty string at end of stream), or it
    raises.  An interrupt arrives while the script is blocked in the call. *)
Inductive read_result : Type :=
| Line (text : string)
| ReadRaises (e : exn).

(** The environment: whether [subprocess.Popen] raises, what the n-th
    [readline] does, what the n-th [datetime.now()] returns, and whether
    [process.terminate()] raises. *)
Record world : Type := mkWorld {
  popen_effect : option exn;
  stdout_script : nat -> read_result;
  clock : nat -> datetime;
  terminate_effect : option exn
}.

(** The observable state: the lines printed so far (one entry per [print]
    call, oldest first), and how many times [readline], [datetime.now] and
    [terminate] have been called. *)
Record state : Type := mkState {
  console : list string;
  reads : nat;
  ticks : nat;
  terminate_requests : nat
}.

Definition initial_state : state := mkState [] 0 0 0.

(** ** A state-and-exception monad for the script *)

Inductive result (A : Type) : Type :=
| Ok (a : A)
| Raised (e : exn).
Arguments Ok {A} a.
Arguments Raised {A} e.

Definition M (A : Type) : Type := state -> result A * state.

Definition ret {A : Type} (a : A) : M A := fun st => (Ok a, st).

Definition raise {A : Type} (e : exn) : M A := fun st => (Raised e, st).

Definition bind {A B : Type} (m : M A) (k : A -> M B) : M B :=
  fun st =>
    match m st with
    | (Ok a, st') => k a st'
    | (Raised e, st') => (Raised e, st')
    end.

Notation "x <- m ;; k" := (bind m (fun x => k))
  (at level 61, m at next level, right associativity).
Notation "m ;; k" := (bind m (fun _ => k))
  (at level 61, right associativity).

Section Monitor.

(** The environment of one run. *)
Variable w : world.

(** [print(s)]: one more line on the console; writing to the console is
    taken to succeed. *)
Definition print (s : string) : M unit :=
  fun st =>
    (Ok tt, mkState (console st ++ [s])%list (reads st) (ticks st)
                    (terminate_requests st)).

(** [datetime.now()]: the clock is read once more. *)
Definition now : M datetime :=
  fun st =>
    (Ok (clock w (ticks st)),
     mkState (console st) (reads st) (S (ticks st)) (terminate_requests st)).

(** [subprocess.Popen(cmd, ...)]: the command line is fixed ([log stream]
    with the predicate on the camera-capture subsystem); what matters here
    is whether the child starts. *)
Definition Popen : M unit :=
  fun st =>
    match popen_effect w with
    | None => (Ok tt, st)
    | Some e => (Raised e, st)
    end.

(** [process.stdout.readline()]. *)
Definition readline : M string :=
  fun st =>
    let st' := mkState (console st) (S (reads st)) (ticks st)
                       (terminate_requests st) in
    match stdout_script w (reads st) with
    | Line text => (Ok text, st')
    | ReadRaises e => (Raised e, st')
    end.

(** [process.terminate()]: the request is issued, and may itself raise. *)
Definition terminate : M unit :=
  fun st =>
    let st' := mkState (console st) (reads st) (ticks st)
                       (S (terminate_requests st)) in
    match terminate_effect w with
    | None => (Ok tt, st')
    | Some e => (Raised e, st')
    end.

(** The body of the loop below the end-of-stream test (lines 24 to 33). *)
Definition loop_body (line : string) : M unit :=
  if contains "Insta360" line then
    if contains "addInput:" line then
      timestamp <- (t <- now ;; ret (strftime t)) ;;
      print ("[" ++ timestamp ++ "] 🟢 Camera STARTED (Active)")
    else if contains "removeInput:" line then
      timestamp <- (t <- now ;; ret (strftime t)) ;;
      print ("[" ++ timestamp ++ "] 🔴 Camera STOPPED (Inactive)")
    else ret tt
  else ret tt.

(** [while True:] (lines 19 to 33).  The loop has no bound of its own, so
    the model counts iterations down from [fuel]; [None] means the fuel
    ran out before the loop was left. *)
Fixpoint while_true (fuel : nat) (st : state) : option (result unit * state) :=
  match fuel with
  | O => None
  | S fuel' =>
      match readline st with
      | (Raised e, st1) => Some (Raised e, st1)
      | (Ok line, st1) =>
          if is_empty line then Some (Ok tt, st1)
          else
            match loop_body line st1 with
            | (Raised e, st2) => Some (Raised e, st2)
            | (Ok _, st2) => while_true fuel' st2
            end
      end
  end.

(** The [try] statement (lines 18 to 40): the loop, and the two handlers.
    A handler runs outside the protection of the [try] it belongs to. *)
Definition monitor_try (fuel : nat) (st : state)
  : option (result unit * state) :=
  match while_true fuel st with
  | None => None
  | Some (Ok _, st1) => Some (Ok tt, st1)
  | Some (Raised KeyboardInterrupt, st1) =>
      Some ((print (String "010" "Stopping monitor...") ;; terminate) st1)
  | Some (Raised (Exception message), st1) =>
      Some ((print ("Error: " ++ message) ;; terminate) st1)
  | Some (Raised (SystemExit code), st1) => Some (Raised (SystemExit code), st1)
  end.

(** The lines printed before the child is spawned (lines 6 to 8). *)
Definition banner : M unit :=
  print "Starting Camera Monitor for macOS (Insta360 Specific)..." ;;
  print "Looking for 'Insta360 Link' session events." ;;
  print "Press Ctrl+C to stop.".

(** [monitor_camera()]. *)
Definition monitor_camera (fuel : nat) (st : state)
  : option (result unit * state) :=
  match (banner ;; Popen) st with
  | (Ok _, st1) => monitor_try fuel st1
  | (Raised e, st1) => Some (Raised e, st1)
  end.

(** The exit status of the interpreter after [monitor_camera()] at the
    top level: 0 on a normal return; an uncaught exception ends the
    process with a non-zero status (1 after the traceback, 130 for an
    interrupt); after [SystemExit] with a non-negative integer code the
    status is the low eight bits of the code, so [SystemExit(256)] ends
    the process with status 0. *)
Definition exit_status (r : result unit) : nat :=
  match r with
  | Ok _ => 0
  | Raised KeyboardInterrupt => 130
  | Raised (Exception _) => 1
  | Raised (SystemExit code) => code mod 256
  end.

(** The script run as [__main__]: the exit status and the final state. *)
Definition main (fuel : nat) : option (nat * state) :=
  match monitor_camera fuel initial_state with
  | None => None
  | Some (r, st) => Some (exit_status r, st)
  end.

End Monitor.

(** ** Vocabulary for the statements *)

(** The state once [e] has been printed at the current clock reading. *)
Definition emit (w : world) (e : event) (st : state) : state :=
  mkState (console st ++ [template (strftime (clock w (ticks st))) e])%list
          (reads st) (S (ticks st)) (terminate_requests st).

(** The state once one more [readline] has been made. *)
Definition after_read (st : state) : state :=
  mkState (console st) (S (reads st)) (ticks st) (terminate_requests st).

(** The events one line gives rise to: none or one. *)
Definition line_events (line : string) : list event :=
  match classify line with
  | Some e => [e]
  | None => []
  end.

(** The console lines of a sequence of events, the first one stamped with
    the [t]-th clock reading and each later one with the next reading. *)
Fixpoint stamp (w : world) (t : nat) (es : list event) : list string :=
  match es with
  | [] => []
  | e :: es' => template (strftime (clock w t)) e :: stamp w (S t) es'
  end.

(** The state once the lines [ls] have been read and handled. *)
Definition after_lines (w : world) (ls : list string) (st : state) : state :=
  mkState (console st ++ stamp w (ticks st) (flat_map line_events ls))%list
          (reads st + List.length ls)
          (ticks st + List.length (flat_map line_events ls))
          (terminate_requests st).

(** From its [k]-th read on, the stream delivers [rs], in this order. *)
Definition script_from (w : world) (k : nat) (rs : list read_result) : Prop :=
  forall i r, nth_error rs i = Some r -> stdout_script w (k + i) = r.

(** The lines of a stream before its end are not empty. *)
Definition nonempty (line : string) : Prop := is_empty line = false.

(** The console lines that are error messages of the handler. *)
Definition error_messages (c : list string) : list string :=
  filter (starts_with "Error: ") c.

(** The state once a handler has printed [message] and requested
    termination. *)
Definition handled (message : string) (st : state) : state :=
  mkState (console st ++ [message])%list (reads st) (ticks st)
          (S (terminate_requests st)).

(** The three lines of the banner. *)
Definition banner_lines : list string :=
  ["Starting Camera Monitor for macOS (Insta360 Specific)...";
   "Looking for 'Insta360 Link' session events.";
   "Press Ctrl+C to stop."].

(** What [process.terminate()] leaves the handler with. *)
Definition terminate_result (w : world) : result unit :=
  match terminate_effect w with
  | None => Ok tt
  | Some e => Raised e
  end.

(** ** Sample worlds *)

(** A clock that starts on 2024-03-04 05:06:07 and advances by one second
    at each reading. *)
Definition sample_clock (n : nat) : datetime :=
  mkDatetime 2024 3 4 5 6 (7 + n).

(** The stream that delivers [rs] and is at its end from then on. *)
Definition stream_of (rs : list read_result) : nat -> read_result :=
  fun n => nth n rs (Line EmptyString).

(** The world in which the child starts, its output is [rs], and
    [terminate] does [term]. *)
Definition world_of (rs : list read_result) (term : option exn) : world :=
  mkWorld None (stream_of rs) sample_clock term.

(** The world whose child never stops writing the same line. *)
Definition endless_world : world :=
  mkWorld None (fun _ => Line "com.apple.cameracapture: tick") sample_clock
          None.

(** The line the interrupt handler prints: a newline, then the text. *)
Definition stopping_message : string := String "010" "Stopping monitor...".

(** Whether a handler of the [try] statement matches the exception. *)
Definition handled_class (e : exn) : bool :=
  match e with
  | KeyboardInterrupt | Exception _ => true
  | SystemExit _ => false
  end.

(** ** Containment is verbatim occurrence *)

Lemma starts_with_app (p s : string) : starts_with p (p ++ s) = true.
Proof.
  induction p as [|a p IH]; simpl; [reflexivity|].
  now rewrite Ascii.eqb_refl, IH.
Qed.

Lemma starts_with_inv (p s : string) :
  starts_with p s = true -> exists post, s = p ++ post.
Proof.
  revert s; induction p as [|a p IH]; intros s H.
  - now exists s.
  - destruct s as [|b s]; simpl in H; [discriminate|].
    apply andb_true_iff in H as [Hab Hps].
    apply Ascii.eqb_eq in Hab; subst b.
    destruct (IH _ Hps) as [post ->].
    now exists post.
Qed.

Lemma contains_app (pre p post : string) :
  contains p (pre ++ p ++ post) = true.
Proof.
  induction pre as [|c pre IH]; simpl.
  - destruct (p ++ post) eqn:E; simpl; rewrite <- E, starts_with_app;
      reflexivity.
  - rewrite IH. apply orb_true_r.
Qed.

Lemma contains_inv (p s : string) :
  contains p s = true -> Substring p s.
Proof.
  induction s as [|c s IH]; simpl; intros H.
  - rewrite orb_false_r in H.
    destruct (starts_with_inv _ _ H) as [post E].
    now exists EmptyString, post.
  - apply orb_true_iff in H as [H|H].
    + destruct (starts_with_inv _ _ H) as [post E].
      now exists EmptyString, post.
    + destruct (IH H) as (pre & post & ->).
      now exists (String c pre), post.
Qed.

Lemma contains_spec (p s : string) :
  contains p s = true <-> Substring p s.
Proof.
  split; [apply contains_inv|].
  intros (pre & post & ->). apply contains_app.
Qed.

Lemma contains_false_spec (p s : string) :
  contains p s = false <-> ~ Substring p s.
Proof.
  rewrite <- contains_spec. destruct (contains p s); intuition congruence.
Qed.

(** ** Strings: append and length *)

Lemma append_assoc (a b c : string) : (a ++ b) ++ c = a ++ b ++ c.
Proof. induction a as [|x a IH]; simpl; [reflexivity | now rewrite IH]. Qed.

Lemma append_nil_r (a : string) : a ++ EmptyString = a.
Proof. induction a as [|x a IH]; simpl; [reflexivity | now rewrite IH]. Qed.

Lemma length_append (a b : string) :
  String.length (a ++ b) = String.length a + String.length b.
Proof. induction a as [|x a IH]; simpl; [reflexivity | now rewrite IH]. Qed.

Lemma is_empty_false_of_substring (p s : string) :
  is_empty p = false -> Substring p s -> is_empty s = false.
Proof.
  intros Hp (pre & post & ->).
  destruct pre; [|reflexivity]. destruct p; [discriminate|reflexivity].
Qed.

(** ** The time stamp has the picture [YYYY-MM-DD HH:MM:SS] *)

Lemma zeros_snoc (k : nat) :
  zeros k ++ String "0" EmptyString = String "0" (zeros k).
Proof. induction k as [|k IH]; simpl; [reflexivity | now rewrite IH]. Qed.

Lemma fixed_digits_0 (k : nat) : fixed_digits k 0 = zeros k.
Proof.
  induction k as [|k IH]; [reflexivity|].
  change (fixed_digits (S k) 0)
    with (fixed_digits k 0 ++ String "0" EmptyString).
  now rewrite IH, zeros_snoc.
Qed.

Lemma length_fixed_digits (k n : nat) : String.length (fixed_digits k n) = k.
Proof.
  revert n; induction k as [|k IH]; intros n; simpl; [reflexivity|].
  rewrite length_append, IH. simpl. lia.
Qed.

Lemma length_zeros (k : nat) : String.length (zeros k) = k.
Proof. induction k as [|k IH]; simpl; [reflexivity | now rewrite IH]. Qed.

(** A numeral of at most [k] digits, zero-filled to [k], is the [k] fixed
    digits; the fuel of [decimal_aux] only has to exceed the number. *)
Lemma zfill_decimal_aux (k : nat) :
  forall fuel n, n < 10 ^ S k -> n < fuel ->
    String.length (decimal_aux fuel n) <= S k /\
    zfill (S k) (decimal_aux fuel n) = fixed_digits (S k) n.
Proof.
  induction k as [|k IH]; intros fuel n Hn Hfuel.
  - destruct fuel as [|fuel]; [lia|].
    change (10 ^ 1) with 10 in Hn.
    cbn [decimal_aux]. apply Nat.ltb_lt in Hn as Hlt. rewrite Hlt.
    split; [simpl; lia | reflexivity].
  - destruct fuel as [|fuel]; [lia|].
    cbn [decimal_aux].
    change (fixed_digits (S (S k)) n)
      with (fixed_digits (S k) (n / 10)
            ++ String (digit (n mod 10)) EmptyString).
    destruct (n <? 10)%nat eqn:Hlt.
    + apply Nat.ltb_lt in Hlt.
      rewrite (Nat.div_small n 10 Hlt), fixed_digits_0.
      split; [simpl; lia|].
      unfold zfill. simpl String.length.
      now replace (S (S k) - 1) with (S k) by lia.
    + apply Nat.ltb_ge in Hlt.
      assert (Hdiv : n / 10 < 10 ^ S k).
      { apply Nat.Div0.div_lt_upper_bound.
        change (10 ^ S (S k)) with (10 * 10 ^ S k) in Hn. lia. }
      assert (Hfuel' : n / 10 < fuel).
      { assert (n / 10 < n) by (apply Nat.div_lt; lia). lia. }
      destruct (IH fuel (n / 10) Hdiv Hfuel') as [Hlen Hfill].
      split.
      * rewrite length_append. cbn [String.length]. lia.
      * rewrite <- Hfill. unfold zfill.
        rewrite length_append, append_assoc. cbn [String.length].
        now replace (S (S k) - (String.length (decimal_aux fuel (n / 10)) + 1))
          with (S k - String.length (decimal_aux fuel (n / 10))) by lia.
Qed.

Lemma zfill_decimal (k n : nat) :
  n < 10 ^ S k -> zfill (S k) (decimal n) = fixed_digits (S k) n.
Proof.
  intros Hn. apply (zfill_decimal_aux k (S n) n Hn). lia.
Qed.

Lemma strftime_picture (t : datetime) :
  valid_datetime t = true -> strftime t = timestamp_picture t.
Proof.
  unfold valid_datetime. rewrite !andb_true_iff, !Nat.leb_le, Nat.ltb_lt.
  intros ((((((((Hy1 & Hy) & Hmo1) & Hmo) & Hd1) & Hd) & Hh) & Hmi) & Hs).
  unfold strftime, timestamp_picture.
  assert (H100 : forall n, n <= 99 -> n < 10 ^ 2)
    by (intros n Hle; change (10 ^ 2) with 100; lia).
  rewrite (zfill_decimal 3 (year t)) by exact Hy.
  rewrite (zfill_decimal 1 (month t)) by (apply H100; lia).
  rewrite (zfill_decimal 1 (day t)) by (apply H100; lia).
  rewrite (zfill_decimal 1 (hour t)) by (apply H100; lia).
  rewrite (zfill_decimal 1 (minute t)) by (apply H100; lia).
  rewrite (zfill_decimal 1 (second t)) by (apply H100; lia).
  reflexivity.
Qed.

Lemma length_timestamp_picture (t : datetime) :
  String.length (timestamp_picture t) = 19.
Proof.
  unfold timestamp_picture.
  repeat rewrite length_append. repeat rewrite length_fixed_digits.
  reflexivity.
Qed.

(** ** One line: the loop body implements [classify] and the template *)

Lemma loop_body_classify (w : world) (line : string) (st : state) :
  loop_body w line st =
  match classify line with
  | Some e => (Ok tt, emit w e st)
  | None => (Ok tt, st)
  end.
Proof.
  unfold loop_body, classify, device_marker, add_marker, remove_marker.
  destruct (contains "Insta360" line); [|reflexivity].
  destruct (contains "addInput:" line); [reflexivity|].
  destruct (contains "removeInput:" line); reflexivity.
Qed.

Lemma emit_neq (w : world) (e : event) (st : state) : emit w e st <> st.
Proof.
  intros H. apply (f_equal ticks) in H. simpl in H. lia.
Qed.

Lemma classify_started (line : string) :
  classify line = Some Started <->
  Substring "Insta360" line /\ Substring "addInput:" line.
Proof.
  rewrite <- !contains_spec.
  unfold classify, device_marker, add_marker, remove_marker.
  destruct (contains "Insta360" line), (contains "addInput:" line),
    (contains "removeInput:" line); simpl; intuition congruence.
Qed.

Lemma classify_stopped (line : string) :
  classify line = Some Stopped <->
  Substring "Insta360" line /\ Substring "removeInput:" line /\
  ~ Substring "addInput:" line.
Proof.
  rewrite <- contains_false_spec, <- !contains_spec.
  unfold classify, device_marker, add_marker, remove_marker.
  destruct (contains "Insta360" line), (contains "addInput:" line),
    (contains "removeInput:" line); simpl; intuition congruence.
Qed.

Lemma classify_none (line : string) :
  classify line = None <->
  ~ Substring "Insta360" line \/
  (~ Substring "addInput:" line /\ ~ Substring "removeInput:" line).
Proof.
  rewrite <- !contains_false_spec.
  unfold classify, device_marker, add_marker, remove_marker.
  destruct (contains "Insta360" line), (contains "addInput:" line),
    (contains "removeInput:" line); simpl; intuition congruence.
Qed.

(** ** The loop over a prefix of the stream *)

Lemma script_from_cons (w : world) (k : nat) (r : read_result)
    (rs : list read_result) :
  script_from w k (r :: rs) ->
  stdout_script w k = r /\ script_from w (S k) rs.
Proof.
  intros H. split.
  - rewrite <- (Nat.add_0_r k). now apply H.
  - intros i r' Hi. replace (S k + i) with (k + S i) by lia. now apply H.
Qed.

Lemma stamp_app (w : world) (t : nat) (es es' : list event) :
  stamp w t (es ++ es')%list
  = (stamp w t es ++ stamp w (t + List.length es) es')%list.
Proof.
  revert t; induction es as [|e es IH]; intros t; simpl.
  - now rewrite Nat.add_0_r.
  - now rewrite IH, Nat.add_succ_comm.
Qed.

Lemma after_lines_nil (w : world) (st : state) : after_lines w [] st = st.
Proof.
  destruct st as [c r t q]. unfold after_lines. simpl.
  now rewrite app_nil_r, !Nat.add_0_r.
Qed.

Lemma after_lines_cons (w : world) (line : string) (ls : list string)
    (st : state) :
  after_lines w (line :: ls) st =
  after_lines w ls
    (match classify line with
     | Some e => emit w e (after_read st)
     | None => after_read st
     end).
Proof.
  unfold after_lines. simpl flat_map. unfold line_events at 1 3.
  destruct (classify line) as [e|]; simpl.
  - rewrite <- app_assoc. simpl. f_equal; lia.
  - f_equal; lia.
Qed.

(** One iteration on a line that is not empty. *)
Lemma while_true_line (w : world) (fuel : nat) (line : string) (st : state) :
  stdout_script w (reads st) = Line line -> nonempty line ->
  while_true w (S fuel) st =
  while_true w fuel
    (match classify line with
     | Some e => emit w e (after_read st)
     | None => after_read st
     end).
Proof.
  intros Hread Hne. simpl. unfold readline. rewrite Hread, Hne.
  fold (after_read st). rewrite loop_body_classify.
  now destruct (classify line).
Qed.

(** The iteration that reads the end of the stream leaves the loop. *)
Lemma while_true_eof (w : world) (fuel : nat) (st : state) :
  stdout_script w (reads st) = Line EmptyString ->
  while_true w (S fuel) st = Some (Ok tt, after_read st).
Proof.
  intros Hread. simpl. unfold readline. now rewrite Hread.
Qed.

(** The iteration whose read raises leaves the loop with the exception. *)
Lemma while_true_raises (w : world) (fuel : nat) (e : exn) (st : state) :
  stdout_script w (reads st) = ReadRaises e ->
  while_true w (S fuel) st = Some (Raised e, after_read st).
Proof.
  intros Hread. simpl. unfold readline. now rewrite Hread.
Qed.

(** The loop consumes a run of lines and goes on in [after_lines]. *)
Lemma while_true_lines (w : world) (ls : list string) :
  forall (fuel : nat) (st : state),
    Forall nonempty ls ->
    script_from w (reads st) (map Line ls) ->
    while_true w (List.length ls + fuel) st
    = while_true w fuel (after_lines w ls st).
Proof.
  induction ls as [|line ls IH]; intros fuel st Hne Hscript.
  - now rewrite after_lines_nil.
  - inversion Hne as [|? ? Hline Hrest]; subst.
    apply script_from_cons in Hscript as [Hread Hscript].
    change (List.length (line :: ls) + fuel) with (S (List.length ls + fuel)).
    rewrite (while_true_line w _ line st Hread Hline), after_lines_cons.
    apply IH; [assumption|].
    now destruct (classify line).
Qed.

Lemma script_from_app (w : world) (k : nat) (rs rs' : list read_result) :
  script_from w k (rs ++ rs')%list ->
  script_from w k rs /\ script_from w (k + List.length rs) rs'.
Proof.
  intros H. split.
  - intros i r Hi. apply H. rewrite nth_error_app1; [assumption|].
    apply nth_error_Some. congruence.
  - intros i r Hi. rewrite <- Nat.add_assoc. apply H.
    rewrite nth_error_app2 by lia.
    now replace (List.length rs + i - List.length rs) with i by lia.
Qed.

(** A run of lines and then one more read [r]: the split used below. *)
Lemma script_from_snoc (w : world) (ls : list string) (r : read_result)
    (st : state) :
  script_from w (reads st) (map Line ls ++ [r])%list ->
  script_from w (reads st) (map Line ls) /\
  stdout_script w (reads (after_lines w ls st)) = r.
Proof.
  intros H. apply script_from_app in H as [H1 H2]. split; [assumption|].
  rewrite length_map in H2. simpl.
  rewrite <- (Nat.add_0_r (reads st + List.length ls)). now apply H2.
Qed.

Lemma script_from_stream_of (rs : list read_result) (term : option exn) :
  script_from (world_of rs term) 0 rs.
Proof.
  intros i r Hi. simpl. unfold stream_of. now apply nth_error_nth.
Qed.

(** After its last line, the stream of [rs] is at its end. *)
Lemma script_from_stream_of_end (rs : list read_result) (term : option exn) :
  script_from (world_of rs term) 0 (rs ++ [Line EmptyString])%list.
Proof.
  intros i r Hi. simpl. unfold stream_of.
  destruct (Nat.lt_ge_cases i (List.length rs)) as [Hlt|Hge].
  - rewrite nth_error_app1 in Hi by assumption. now apply nth_error_nth.
  - rewrite nth_error_app2 in Hi by assumption.
    rewrite nth_overflow by assumption.
    destruct (i - List.length rs) as [|j]; simpl in Hi.
    + now injection Hi.
    + destruct j; discriminate.
Qed.

(** ** Classification of one line (claims C1, C2, C3, C10) *)

(** C1: a line that contains the device-name marker "Insta360" and the
    marker "addInput:" is classified as [Started] and makes the loop body
    print exactly one line, the STARTED line; nothing is assumed about
    "removeInput:", so this holds as well when the line contains it: the
    add test is made first and wins.  Such a line is not empty, so it
    reaches the loop body. *)
Theorem C1_add_line_prints_one_started (w : world) (line : string)
    (st : state) :
  Substring "Insta360" line -> Substring "addInput:" line ->
  classify line = Some Started /\
  nonempty line /\
  loop_body w line st =
    (Ok tt,
     mkState (console st
              ++ [("[" ++ strftime (clock w (ticks st))
                   ++ "] 🟢 Camera STARTED (Active)")%string])%list
             (reads st) (S (ticks st)) (terminate_requests st)).
Proof.
  intros Hdev Hadd.
  assert (Hc : classify line = Some Started) by now apply classify_started.
  split; [assumption|]. split.
  - now apply (is_empty_false_of_substring "Insta360").
  - now rewrite loop_body_classify, Hc.
Qed.

Lemma C1_witness_add_and_remove :
  classify "Insta360 Link removeInput: addInput:" = Some Started /\
  nonempty "Insta360 Link removeInput: addInput:" /\
  loop_body (world_of [] None) "Insta360 Link removeInput: addInput:"
            initial_state =
    (Ok tt,
     mkState ["[2024-03-04 05:06:07] 🟢 Camera STARTED (Active)"] 0 1 0).
Proof.
  apply (C1_add_line_prints_one_started (world_of [] None)
           "Insta360 Link removeInput: addInput:" initial_state);
    apply contains_spec; reflexivity.
Defined.

(** C2: a line that contains "Insta360" and "removeInput:" and does not
    contain "addInput:" is classified as [Stopped] and makes the loop body
    print exactly one line, the STOPPED line. *)
Theorem C2_remove_line_prints_one_stopped (w : world) (line : string)
    (st : state) :
  Substring "Insta360" line -> Substring "removeInput:" line ->
  ~ Substring "addInput:" line ->
  classify line = Some Stopped /\
  nonempty line /\
  loop_body w line st =
    (Ok tt,
     mkState (console st
              ++ [("[" ++ strftime (clock w (ticks st))
                   ++ "] 🔴 Camera STOPPED (Inactive)")%string])%list
             (reads st) (S (ticks st)) (terminate_requests st)).
Proof.
  intros Hdev Hrem Hadd.
  assert (Hc : classify line = Some Stopped) by now apply classify_stopped.
  split; [assumption|]. split.
  - now apply (is_empty_false_of_substring "Insta360").
  - now rewrite loop_body_classify, Hc.
Qed.

Lemma C2_witness_remove_only :
  classify "removeInput: <Insta360 Link>" = Some Stopped /\
  nonempty "removeInput: <Insta360 Link>" /\
  loop_body (world_of [] None) "removeInput: <Insta360 Link>" initial_state =
    (Ok tt,
     mkState ["[2024-03-04 05:06:07] 🔴 Camera STOPPED (Inactive)"] 0 1 0).
Proof.
  apply (C2_remove_line_prints_one_stopped (world_of [] None)
           "removeInput: <Insta360 Link>" initial_state);
    [apply contains_spec; reflexivity | apply contains_spec; reflexivity
    | apply contains_false_spec; reflexivity].
Defined.

(** C3: a line that does not contain "Insta360" gives no event, and the
    loop body leaves the state as it is (nothing is printed, the clock is
    not read), whatever else the line contains. *)
Theorem C3_no_device_marker_no_event (w : world) (line : string)
    (st : state) :
  ~ Substring "Insta360" line ->
  classify line = None /\ loop_body w line st = (Ok tt, st).
Proof.
  intros Hdev.
  assert (Hc : classify line = None) by (apply classify_none; now left).
  split; [assumption|]. now rewrite loop_body_classify, Hc.
Qed.

Lemma C3_witness_other_device :
  classify "Logitech Webcam addInput: removeInput:" = None /\
  loop_body (world_of [] None) "Logitech Webcam addInput: removeInput:"
            initial_state = (Ok tt, initial_state).
Proof.
  apply (C3_no_device_marker_no_event (world_of [] None)
           "Logitech Webcam addInput: removeInput:" initial_state).
  apply contains_false_spec; reflexivity.
Defined.

(** C10: matching is verbatim, case-sensitive containment.  A line gives an
    event exactly when "Insta360" and one of "addInput:" and "removeInput:"
    occur in it character for character, at any offset and with any
    neighbours: lines that hold only case variants of a marker, or a marker
    broken by a blank, give no event, and a marker needs no blank or word
    boundary around it. *)
Theorem C10_matching_is_verbatim :
  (forall (w : world) (line : string) (st : state),
      loop_body w line st = (Ok tt, st) <->
      ~ (Substring "Insta360" line /\
         (Substring "addInput:" line \/ Substring "removeInput:" line))) /\
  classify "insta360 Link addInput:" = None /\
  classify "INSTA360 Link removeInput:" = None /\
  classify "Insta360 Link ADDINPUT:" = None /\
  classify "Insta360 Link addinput:" = None /\
  classify "Insta360 Link RemoveInput:" = None /\
  classify "Insta 360 Link addInput:" = None /\
  classify "Insta360 Link addInput :" = None /\
  classify "xInsta360yaddInput:z" = Some Started /\
  classify "  xremoveInput:Insta360  " = Some Stopped.
Proof.
  split; [|repeat split; reflexivity].
  intros w line st. rewrite loop_body_classify. split.
  - intros H [Hdev Hev].
    destruct (classify line) as [e|] eqn:Hc.
    + injection H as H. now apply emit_neq in H.
    + apply classify_none in Hc. tauto.
  - intros H. destruct (classify line) as [[|]|] eqn:Hc; [| |reflexivity].
    + apply classify_started in Hc. tauto.
    + apply classify_stopped in Hc. tauto.
Qed.

(** ** The console line of an event (claim C4) *)

(** C4: for every event the loop emits, the one line printed is the
    template: in square brackets the clock reading in the picture
    YYYY-MM-DD HH:MM:SS (nineteen characters, zero-padded fields, seconds
    the last one), then the green glyph U+1F7E2 and "Camera STARTED
    (Active)" for [Started], or the red glyph U+1F534 and "Camera STOPPED
    (Inactive)" for [Stopped]. *)
Theorem C4_console_line_follows_template (w : world) (line : string)
    (e : event) (st : state) :
  classify line = Some e ->
  valid_datetime (clock w (ticks st)) = true ->
  let ts := timestamp_picture (clock w (ticks st)) in
  loop_body w line st =
    (Ok tt,
     mkState (console st ++ [template ts e])%list
             (reads st) (S (ticks st)) (terminate_requests st)) /\
  String.length ts = 19 /\
  template ts e =
    match e with
    | Started => "[" ++ ts ++ "] " ++ green_glyph ++ " Camera STARTED (Active)"
    | Stopped => "[" ++ ts ++ "] " ++ red_glyph ++ " Camera STOPPED (Inactive)"
    end.
Proof.
  intros Hc Hvalid ts. split; [|split].
  - rewrite loop_body_classify, Hc. unfold emit.
    now rewrite (strftime_picture _ Hvalid).
  - apply length_timestamp_picture.
  - now destruct e.
Qed.

Lemma C4_witness_stopped_line :
  loop_body (world_of [] None) "Insta360 Link removeInput:"
            (mkState [] 3 2 0) =
    (Ok tt,
     mkState ["[2024-03-04 05:06:09] 🔴 Camera STOPPED (Inactive)"] 3 3 0) /\
  String.length "2024-03-04 05:06:09" = 19 /\
  "[2024-03-04 05:06:09] 🔴 Camera STOPPED (Inactive)" =
  "[" ++ "2024-03-04 05:06:09" ++ "] " ++ red_glyph
  ++ " Camera STOPPED (Inactive)".
Proof.
  apply (C4_console_line_follows_template (world_of [] None)
           "Insta360 Link removeInput:" Stopped (mkState [] 3 2 0));
    reflexivity.
Defined.

(** ** Runs of the monitor *)

Lemma handler_run (w : world) (message : string) (st : state) :
  (print message ;; terminate w) st
  = (terminate_result w, handled message st).
Proof.
  unfold bind, print, terminate, terminate_result, handled. simpl.
  now destruct (terminate_effect w).
Qed.

(** A finite stream: the loop is left at the first empty read. *)
Lemma while_true_end_of_stream (w : world) (ls : list string) (st : state)
    (fuel : nat) :
  Forall nonempty ls ->
  script_from w (reads st) (map Line ls ++ [Line EmptyString])%list ->
  List.length ls < fuel ->
  while_true w fuel st = Some (Ok tt, after_read (after_lines w ls st)).
Proof.
  intros Hne Hscript Hfuel.
  apply script_from_snoc in Hscript as [Hlines Hlast].
  replace fuel with (List.length ls + S (fuel - S (List.length ls))) by lia.
  rewrite (while_true_lines w ls _ st Hne Hlines).
  now apply while_true_eof.
Qed.

(** A stream whose read raises after some lines: the loop is left with
    the exception. *)
Lemma while_true_read_raises (w : world) (ls : list string) (e : exn)
    (st : state) (fuel : nat) :
  Forall nonempty ls ->
  script_from w (reads st) (map Line ls ++ [ReadRaises e])%list ->
  List.length ls < fuel ->
  while_true w fuel st = Some (Raised e, after_read (after_lines w ls st)).
Proof.
  intros Hne Hscript Hfuel.
  apply script_from_snoc in Hscript as [Hlines Hlast].
  replace fuel with (List.length ls + S (fuel - S (List.length ls))) by lia.
  rewrite (while_true_lines w ls _ st Hne Hlines).
  now apply while_true_raises.
Qed.

(** A stream that never ends and never raises keeps the loop running:
    no amount of fuel is enough. *)
Lemma while_true_endless (w : world) :
  (forall n, exists line, stdout_script w n = Line line /\ nonempty line) ->
  forall fuel st, while_true w fuel st = None.
Proof.
  intros Hlines fuel. induction fuel as [|fuel IH]; intros st; [reflexivity|].
  destruct (Hlines (reads st)) as (line & Hread & Hne).
  rewrite (while_true_line w fuel line st Hread Hne). apply IH.
Qed.

Lemma error_messages_app (c c' : list string) :
  error_messages (c ++ c')%list = (error_messages c ++ error_messages c')%list.
Proof. apply filter_app. Qed.

Lemma error_messages_stamp (w : world) (t : nat) (es : list event) :
  error_messages (stamp w t es) = [].
Proof.
  revert t; induction es as [|e es IH]; intros t; [reflexivity|].
  unfold error_messages in *. simpl. now rewrite IH.
Qed.

Lemma error_messages_after (w : world) (ls : list string) (st : state) :
  error_messages (console (after_read (after_lines w ls st)))
  = error_messages (console st).
Proof.
  simpl. now rewrite error_messages_app, error_messages_stamp, app_nil_r.
Qed.

Lemma banner_run (w : world) (st : state) :
  (banner ;; Popen w) st =
  (match popen_effect w with None => Ok tt | Some e => Raised e end,
   mkState (console st ++ banner_lines)%list (reads st) (ticks st)
           (terminate_requests st)).
Proof.
  unfold banner, bind, print, Popen, banner_lines. simpl.
  rewrite <- !app_assoc. simpl. now destruct (popen_effect w).
Qed.

(** ** End of stream (claims C8, C9 and C6) *)

(** C8: on every finite stream (lines [ls], then the empty read of the end
    of stream) the read loop terminates once the fuel exceeds the number of
    lines: it is left normally right after the first empty read, with
    exactly [length ls + 1] reads made, the [try] statement returns
    normally as well, and no error message is added to the console. *)
Theorem C8_finite_stream_loop_terminates (w : world) (ls : list string)
    (st : state) (fuel : nat) :
  Forall nonempty ls ->
  script_from w (reads st) (map Line ls ++ [Line EmptyString])%list ->
  List.length ls < fuel ->
  let st' := after_read (after_lines w ls st) in
  while_true w fuel st = Some (Ok tt, st') /\
  monitor_try w fuel st = Some (Ok tt, st') /\
  reads st' = reads st + List.length ls + 1 /\
  error_messages (console st') = error_messages (console st).
Proof.
  intros Hne Hscript Hfuel st'.
  assert (Hloop : while_true w fuel st = Some (Ok tt, st'))
    by now apply while_true_end_of_stream.
  split; [assumption|]. split; [|split].
  - unfold monitor_try. now rewrite Hloop.
  - simpl. lia.
  - apply error_messages_after.
Qed.

Lemma C8_witness_two_lines_then_end :
  let w := world_of [Line "Insta360 addInput: a"; Line "other"] None in
  let st' := mkState ["[2024-03-04 05:06:07] 🟢 Camera STARTED (Active)"]
                     3 1 0 in
  while_true w 3 initial_state = Some (Ok tt, st') /\
  monitor_try w 3 initial_state = Some (Ok tt, st') /\
  reads st' = 0 + 2 + 1 /\
  error_messages (console st') = [].
Proof.
  apply (C8_finite_stream_loop_terminates
           (world_of [Line "Insta360 addInput: a"; Line "other"] None)
           ["Insta360 addInput: a"; "other"] initial_state 3).
  - repeat constructor.
  - apply (script_from_stream_of_end
             [Line "Insta360 addInput: a"; Line "other"] None).
  - simpl. lia.
Defined.

(** C9: processing keeps no state between lines.  On every finite stream
    the lines added to the console are the concatenation, in order, of what
    each line gives on its own (no line, or the one line of its event),
    each stamped with the next clock reading; the output of [ls1 ++ ls2]
    is the output of [ls1] followed by the output of [ls2].  In particular
    two consecutive lines that match the [Started] pattern print two
    STARTED lines: nothing is compared with an earlier line. *)
Theorem C9_output_is_concatenation_of_line_outputs :
  (forall (w : world) (ls : list string) (st : state) (fuel : nat),
      Forall nonempty ls ->
      script_from w (reads st) (map Line ls ++ [Line EmptyString])%list ->
      List.length ls < fuel ->
      exists st',
        monitor_try w fuel st = Some (Ok tt, st') /\
        console st'
        = (console st ++ stamp w (ticks st) (flat_map line_events ls))%list) /\
  (forall (w : world) (t : nat) (ls1 ls2 : list string),
      stamp w t (flat_map line_events (ls1 ++ ls2))
      = (stamp w t (flat_map line_events ls1)
         ++ stamp w (t + List.length (flat_map line_events ls1))
                  (flat_map line_events ls2))%list) /\
  (forall (w : world) (l1 l2 : string) (st : state) (fuel : nat),
      Substring "Insta360" l1 -> Substring "addInput:" l1 ->
      Substring "Insta360" l2 -> Substring "addInput:" l2 ->
      script_from w (reads st) [Line l1; Line l2; Line EmptyString] ->
      2 < fuel ->
      exists st',
        monitor_try w fuel st = Some (Ok tt, st') /\
        console st'
        = (console st
           ++ [("[" ++ strftime (clock w (ticks st))
                ++ "] 🟢 Camera STARTED (Active)")%string;
               ("[" ++ strftime (clock w (S (ticks st)))
                ++ "] 🟢 Camera STARTED (Active)")%string])%list).
Proof.
  assert (Hall : forall (w : world) (ls : list string) (st : state)
                        (fuel : nat),
             Forall nonempty ls ->
             script_from w (reads st)
                         (map Line ls ++ [Line EmptyString])%list ->
             List.length ls < fuel ->
             exists st',
               monitor_try w fuel st = Some (Ok tt, st') /\
               console st'
               = (console st
                  ++ stamp w (ticks st) (flat_map line_events ls))%list).
  { intros w ls st fuel Hne Hscript Hfuel.
    exists (after_read (after_lines w ls st)). split; [|reflexivity].
    unfold monitor_try.
    now rewrite (while_true_end_of_stream w ls st fuel Hne Hscript Hfuel). }
  split; [exact Hall|]. split.
  - intros w t ls1 ls2. now rewrite flat_map_app, stamp_app.
  - intros w l1 l2 st fuel Hd1 Ha1 Hd2 Ha2 Hscript Hfuel.
    assert (Hne : Forall nonempty [l1; l2]).
    { repeat constructor;
        now apply (is_empty_false_of_substring "Insta360"). }
    destruct (Hall w [l1; l2] st fuel Hne Hscript Hfuel) as (st' & Hrun & Hout).
    exists st'. split; [assumption|]. rewrite Hout. simpl. unfold line_events.
    rewrite (proj2 (classify_started l1) (conj Hd1 Ha1)).
    rewrite (proj2 (classify_started l2) (conj Hd2 Ha2)).
    reflexivity.
Qed.

Lemma C9_witness_started_twice :
  exists st',
    monitor_try
      (world_of [Line "Insta360 addInput: a"; Line "Insta360 addInput: a"]
                None)
      3 initial_state = Some (Ok tt, st') /\
    console st' = ["[2024-03-04 05:06:07] 🟢 Camera STARTED (Active)";
                   "[2024-03-04 05:06:08] 🟢 Camera STARTED (Active)"].
Proof.
  apply (proj2 (proj2 C9_output_is_concatenation_of_line_outputs)
           (world_of [Line "Insta360 addInput: a"; Line "Insta360 addInput: a"]
                     None)
           "Insta360 addInput: a" "Insta360 addInput: a" initial_state 3);
    try (apply contains_spec; reflexivity).
  - apply (script_from_stream_of_end
             [Line "Insta360 addInput: a"; Line "Insta360 addInput: a"] None).
  - lia.
Defined.

(** On the end-of-stream path no termination is requested, whatever the
    lines of the stream. *)
Lemma end_of_stream_requests_no_termination (w : world) (ls : list string)
    (st : state) (fuel : nat) :
  Forall nonempty ls ->
  script_from w (reads st) (map Line ls ++ [Line EmptyString])%list ->
  List.length ls < fuel ->
  exists st',
    monitor_try w fuel st = Some (Ok tt, st') /\
    terminate_requests st' = terminate_requests st.
Proof.
  intros Hne Hscript Hfuel.
  exists (after_read (after_lines w ls st)). split; [|reflexivity].
  unfold monitor_try.
  now rewrite (while_true_end_of_stream w ls st fuel Hne Hscript Hfuel).
Qed.

(** C6: the code at the end of the stream.  When the first read is empty
    the monitor function returns normally and has requested no termination
    ([terminate_requests] is 0); on an interrupt at the same read, the
    handler requests it once. *)
Theorem C6_end_of_stream_returns_without_termination :
  monitor_camera (world_of [] None) 1 initial_state
  = Some (Ok tt, mkState banner_lines 1 0 0) /\
  monitor_camera (world_of [ReadRaises KeyboardInterrupt] None) 1
                 initial_state
  = Some (Ok tt,
          mkState (banner_lines ++ [String "010" "Stopping monitor..."])%list
                  1 0 1).
Proof. split; reflexivity. Qed.

(** ** Errors (claims C5 and C7) *)

(** A read that raises an [Exception] after the lines [ls]: the handler
    prints the message and requests termination, and the [try] statement
    ends the way [terminate] does. *)
Lemma monitor_try_read_error (w : world) (ls : list string) (message : string)
    (st : state) (fuel : nat) :
  Forall nonempty ls ->
  script_from w (reads st)
              (map Line ls ++ [ReadRaises (Exception message)])%list ->
  List.length ls < fuel ->
  monitor_try w fuel st
  = Some (terminate_result w,
          handled ("Error: " ++ message) (after_read (after_lines w ls st))).
Proof.
  intros Hne Hscript Hfuel. unfold monitor_try.
  rewrite (while_true_read_raises w ls _ st fuel Hne Hscript Hfuel).
  now rewrite handler_run.
Qed.

(** C5, as the code has it: an error (an instance of [Exception]) raised
    by a read of the stream is caught by the handler of the [try]
    statement, reported as the one line "Error: <text>", and followed by
    one termination request; it does not leave the monitor: when
    [terminate] returns, the [try] statement returns normally.  An error
    raised by [terminate] itself is raised in the handler, which the [try]
    does not protect, and is what the [try] statement raises. *)
Theorem C5_read_error_is_caught_terminate_error_is_not (w : world)
    (ls : list string) (message : string) (st : state) (fuel : nat) :
  Forall nonempty ls ->
  script_from w (reads st)
              (map Line ls ++ [ReadRaises (Exception message)])%list ->
  List.length ls < fuel ->
  let st' := handled ("Error: " ++ message)
                     (after_read (after_lines w ls st)) in
  (terminate_effect w = None -> monitor_try w fuel st = Some (Ok tt, st')) /\
  (forall e, terminate_effect w = Some e ->
             monitor_try w fuel st = Some (Raised e, st')) /\
  console st'
  = (console st ++ stamp w (ticks st) (flat_map line_events ls)
     ++ [("Error: " ++ message)%string])%list /\
  terminate_requests st' = S (terminate_requests st).
Proof.
  intros Hne Hscript Hfuel st'.
  pose proof (monitor_try_read_error w ls message st fuel Hne Hscript Hfuel)
    as Hrun.
  unfold terminate_result in Hrun.
  repeat split.
  - intros Hterm. now rewrite Hterm in Hrun.
  - intros e Hterm. now rewrite Hterm in Hrun.
  - simpl. now rewrite <- app_assoc.
Qed.

Lemma C5_witness_read_error_reported :
  let st' := mkState ["[2024-03-04 05:06:07] 🟢 Camera STARTED (Active)";
                      "Error: broken pipe"] 2 1 1 in
  let w := world_of [Line "Insta360 addInput:";
                     ReadRaises (Exception "broken pipe")] None in
  (terminate_effect w = None ->
   monitor_try w 2 initial_state = Some (Ok tt, st')) /\
  (forall e, terminate_effect w = Some e ->
             monitor_try w 2 initial_state = Some (Raised e, st')) /\
  console st' = ["[2024-03-04 05:06:07] 🟢 Camera STARTED (Active)";
                 "Error: broken pipe"] /\
  terminate_requests st' = 1.
Proof.
  apply (C5_read_error_is_caught_terminate_error_is_not
           (world_of [Line "Insta360 addInput:";
                      ReadRaises (Exception "broken pipe")] None)
           ["Insta360 addInput:"] "broken pipe" initial_state 2).
  - repeat constructor.
  - apply (script_from_stream_of
             [Line "Insta360 addInput:"; ReadRaises (Exception "broken pipe")]
             None).
  - simpl. lia.
Defined.

(** C5 as stated fails: the first read raises, the handler prints the
    message and calls [terminate], [terminate] raises, and that error
    leaves [monitor_camera]. *)
Lemma C5_counterexample_terminate_error_escapes :
  monitor_camera
    (world_of [ReadRaises (Exception "read failed")]
              (Some (Exception "terminate failed")))
    1 initial_state
  = Some (Raised (Exception "terminate failed"),
          mkState (banner_lines ++ ["Error: read failed"])%list 1 0 1).
Proof. reflexivity. Qed.

(** The whole script on a stream whose read raises an [Exception]. *)
Lemma main_read_error (w : world) (ls : list string) (message : string)
    (fuel : nat) :
  popen_effect w = None ->
  Forall nonempty ls ->
  script_from w 0 (map Line ls ++ [ReadRaises (Exception message)])%list ->
  List.length ls < fuel ->
  main w fuel
  = Some (exit_status (terminate_result w),
          handled ("Error: " ++ message)
            (after_read
               (after_lines w ls (mkState banner_lines 0 0 0)))).
Proof.
  intros Hpopen Hne Hscript Hfuel. unfold main, monitor_camera.
  rewrite banner_run, Hpopen. unfold initial_state.
  cbn [console reads ticks terminate_requests app].
  now rewrite (monitor_try_read_error w ls message (mkState banner_lines 0 0 0)
                 fuel Hne Hscript Hfuel).
Qed.

(** C7, as the code has it: when a read of the stream raises an
    [Exception], the console holds exactly one error message at the end of
    the run, exactly one termination request has been issued, and the
    exit status is the one [terminate] leaves: 0 when the request returns
    normally, and 1 when the request itself raises an [Exception], which
    nothing catches. *)
Theorem C7_read_error_one_message_one_termination (w : world)
    (ls : list string) (message : string) (fuel : nat) :
  popen_effect w = None ->
  Forall nonempty ls ->
  script_from w 0 (map Line ls ++ [ReadRaises (Exception message)])%list ->
  List.length ls < fuel ->
  exists st',
    main w fuel = Some (exit_status (terminate_result w), st') /\
    error_messages (console st') = [("Error: " ++ message)%string] /\
    terminate_requests st' = 1 /\
    (terminate_effect w = None -> main w fuel = Some (0, st')) /\
    (forall text, terminate_effect w = Some (Exception text) ->
                  main w fuel = Some (1, st')).
Proof.
  intros Hpopen Hne Hscript Hfuel.
  pose proof (main_read_error w ls message fuel Hpopen Hne Hscript Hfuel)
    as Hmain.
  eexists. split; [exact Hmain|]. split; [|split; [|split]].
  - unfold handled, after_read, after_lines. cbn [console].
    rewrite !error_messages_app, error_messages_stamp.
    reflexivity.
  - reflexivity.
  - intros Hterm. rewrite Hmain. unfold terminate_result.
    now rewrite Hterm.
  - intros text Hterm. rewrite Hmain. unfold terminate_result.
    now rewrite Hterm.
Qed.

Lemma C7_witness_read_error_exit_0 :
  exists st',
    main (world_of [Line "Insta360 removeInput:";
                    ReadRaises (Exception "broken pipe")] None) 2
    = Some (0, st') /\
    error_messages (console st') = ["Error: broken pipe"] /\
    terminate_requests st' = 1 /\
    (terminate_effect
       (world_of [Line "Insta360 removeInput:";
                  ReadRaises (Exception "broken pipe")] None) = None ->
     main (world_of [Line "Insta360 removeInput:";
                     ReadRaises (Exception "broken pipe")] None) 2
     = Some (0, st')) /\
    (forall text,
        terminate_effect
          (world_of [Line "Insta360 removeInput:";
                     ReadRaises (Exception "broken pipe")] None)
        = Some (Exception text) ->
        main (world_of [Line "Insta360 removeInput:";
                        ReadRaises (Exception "broken pipe")] None) 2
        = Some (1, st')).
Proof.
  apply (C7_read_error_one_message_one_termination
           (world_of [Line "Insta360 removeInput:";
                      ReadRaises (Exception "broken pipe")] None)
           ["Insta360 removeInput:"] "broken pipe" 2).
  - reflexivity.
  - repeat constructor.
  - apply (script_from_stream_of
             [Line "Insta360 removeInput:";
              ReadRaises (Exception "broken pipe")] None).
  - simpl. lia.
Defined.

(** C7 as stated fails: a read raises, the one error message is printed
    and the one termination request is issued, but the request raises in
    its turn and the script ends with exit status 1. *)
Lemma C7_counterexample_exit_status_1 :
  main (world_of [Line "Insta360 addInput:";
                  ReadRaises (Exception "read failed")]
                 (Some (Exception "Operation not permitted")))
       2
  = Some (1,
          mkState (banner_lines
                   ++ ["[2024-03-04 05:06:07] 🟢 Camera STARTED (Active)";
                       "Error: read failed"])%list
                  2 1 1).
Proof. reflexivity. Qed.

(** ** Invariants of every run *)

(** The loop body always returns, requests no termination, and only adds
    to the console. *)
Lemma loop_body_frame (w : world) (line : string) (st : state) :
  exists st2 new,
    loop_body w line st = (Ok tt, st2) /\
    console st2 = (console st ++ new)%list /\
    reads st2 = reads st /\
    terminate_requests st2 = terminate_requests st.
Proof.
  rewrite loop_body_classify. destruct (classify line) as [e|].
  - exists (emit w e st), [template (strftime (clock w (ticks st))) e].
    now repeat split.
  - exists st, []. rewrite app_nil_r. now repeat split.
Qed.

(** Whenever the loop is left: it has requested no termination, it has
    only added to the console, it has read at least once, and an exception
    it is left with is one that a read of the stream raised. *)
Lemma while_true_frame (w : world) (fuel : nat) :
  forall (st : state) (r : result unit) (st' : state),
    while_true w fuel st = Some (r, st') ->
    terminate_requests st' = terminate_requests st /\
    (exists new, console st' = (console st ++ new)%list) /\
    reads st < reads st' /\
    (forall e, r = Raised e ->
               exists n, reads st <= n /\ stdout_script w n = ReadRaises e).
Proof.
  induction fuel as [|fuel IH]; intros st r st' Hrun; [discriminate|].
  simpl in Hrun. unfold readline in Hrun.
  destruct (stdout_script w (reads st)) as [text|e0] eqn:Hread.
  - fold (after_read st) in Hrun.
    destruct (is_empty text).
    + injection Hrun as <- <-. repeat split.
      * exists []. simpl. now rewrite app_nil_r.
      * simpl. lia.
      * discriminate.
    + destruct (loop_body_frame w text (after_read st))
        as (st2 & new & Hbody & Hcons & Hreads & Hterm).
      rewrite Hbody in Hrun.
      destruct (IH st2 r st' Hrun) as (Ht & (new' & Hc) & Hr & Hexn).
      repeat split.
      * now rewrite Ht, Hterm.
      * exists (new ++ new')%list. now rewrite Hc, Hcons, app_assoc.
      * rewrite Hreads in Hr. simpl in Hr. lia.
      * intros e He. destruct (Hexn e He) as (n & Hn & Hraise).
        exists n. split; [|assumption].
        rewrite Hreads in Hn. simpl in Hn. lia.
  - injection Hrun as <- <-. repeat split.
    + exists []. simpl. now rewrite app_nil_r.
    + simpl. lia.
    + intros e He. injection He as <-. exists (reads st). now split.
Qed.

(** The [try] statement, by the way the loop is left: a normal end and a
    [SystemExit] pass through; an interrupt and an [Exception] run their
    handler, whose outcome is the one of [terminate]. *)
Lemma monitor_try_cases (w : world) (fuel : nat) (st : state)
    (r : result unit) (st' : state) :
  monitor_try w fuel st = Some (r, st') ->
  exists r0 st0,
    while_true w fuel st = Some (r0, st0) /\
    match r0 with
    | Ok _ => r = Ok tt /\ st' = st0
    | Raised KeyboardInterrupt =>
        r = terminate_result w /\ st' = handled stopping_message st0
    | Raised (Exception message) =>
        r = terminate_result w /\ st' = handled ("Error: " ++ message) st0
    | Raised (SystemExit code) => r = Raised (SystemExit code) /\ st' = st0
    end.
Proof.
  unfold monitor_try. intros Hrun.
  destruct (while_true w fuel st) as [[r0 st0]|]; [|discriminate].
  exists r0, st0. split; [reflexivity|].
  destruct r0 as [u|[|message|code]].
  - injection Hrun as <- <-. now split.
  - change (String "010" "Stopping monitor...") with stopping_message in Hrun.
    rewrite handler_run in Hrun. injection Hrun as <- <-. now split.
  - rewrite handler_run in Hrun. injection Hrun as <- <-. now split.
  - injection Hrun as <- <-. now split.
Qed.

(** An interrupt during a read, after the lines [ls]. *)
Lemma monitor_try_interrupt (w : world) (ls : list string) (st : state)
    (fuel : nat) :
  Forall nonempty ls ->
  script_from w (reads st)
              (map Line ls ++ [ReadRaises KeyboardInterrupt])%list ->
  List.length ls < fuel ->
  monitor_try w fuel st
  = Some (terminate_result w,
          handled stopping_message (after_read (after_lines w ls st))).
Proof.
  intros Hne Hscript Hfuel. unfold monitor_try.
  rewrite (while_true_read_raises w ls _ st fuel Hne Hscript Hfuel).
  change (String "010" "Stopping monitor...") with stopping_message.
  now rewrite handler_run.
Qed.

(** ** The interrupt handler (lines 35 to 37) *)

(** X1: when the operator interrupts the script while it waits for a line,
    after the lines [ls], the script prints the events of [ls] and then the
    one line "Stopping monitor..." (with its leading newline) and no error
    message, requests termination exactly once, and ends the way
    [terminate] does: with exit status 0 when the request returns. *)
Theorem X1_interrupt_stops_the_monitor (w : world) (ls : list string)
    (fuel : nat) :
  popen_effect w = None ->
  Forall nonempty ls ->
  script_from w 0 (map Line ls ++ [ReadRaises KeyboardInterrupt])%list ->
  List.length ls < fuel ->
  exists st',
    main w fuel = Some (exit_status (terminate_result w), st') /\
    console st'
    = (banner_lines ++ stamp w 0 (flat_map line_events ls)
       ++ [stopping_message])%list /\
    error_messages (console st') = [] /\
    terminate_requests st' = 1 /\
    (terminate_effect w = None -> main w fuel = Some (0, st')).
Proof.
  intros Hpopen Hne Hscript Hfuel.
  assert (Hmain : main w fuel
                  = Some (exit_status (terminate_result w),
                          handled stopping_message
                            (after_read
                               (after_lines w ls
                                            (mkState banner_lines 0 0 0))))).
  { unfold main, monitor_camera.
    rewrite banner_run, Hpopen. unfold initial_state.
    cbn [console reads ticks terminate_requests app].
    now rewrite (monitor_try_interrupt w ls (mkState banner_lines 0 0 0) fuel
                   Hne Hscript Hfuel). }
  eexists. split; [exact Hmain|]. split; [|split; [|split]].
  - unfold handled, after_read, after_lines. cbn [console ticks].
    now rewrite <- app_assoc.
  - unfold handled, after_read, after_lines. cbn [console].
    rewrite !error_messages_app, error_messages_stamp. reflexivity.
  - reflexivity.
  - intros Hterm. rewrite Hmain. unfold terminate_result. now rewrite Hterm.
Qed.

Lemma X1_witness_interrupt_after_one_event :
  let w := world_of [Line "Insta360 Link addInput:";
                     ReadRaises KeyboardInterrupt] None in
  exists st',
    main w 2 = Some (0, st') /\
    console st'
    = (banner_lines
       ++ ["[2024-03-04 05:06:07] 🟢 Camera STARTED (Active)";
           stopping_message])%list /\
    error_messages (console st') = [] /\
    terminate_requests st' = 1 /\
    (terminate_effect w = None -> main w 2 = Some (0, st')).
Proof.
  apply (X1_interrupt_stops_the_monitor
           (world_of [Line "Insta360 Link addInput:";
                      ReadRaises KeyboardInterrupt] None)
           ["Insta360 Link addInput:"] 2).
  - reflexivity.
  - repeat constructor.
  - apply (script_from_stream_of
             [Line "Insta360 Link addInput:"; ReadRaises KeyboardInterrupt]
             None).
  - simpl. lia.
Defined.

(** ** Starting the child (lines 6 to 16) *)

(** X2: [Popen] is called before the [try] statement, so when it raises
    (the [log] command is missing, say) no handler runs, whatever the class
    of the exception and whatever the fuel: the three banner lines are on
    the console and nothing else, nothing was read, no termination was
    requested, and the exception leaves [monitor_camera] and decides the
    exit status. *)
Theorem X2_popen_failure_is_not_handled (w : world) (e : exn) (fuel : nat)
    (st : state) :
  popen_effect w = Some e ->
  monitor_camera w fuel st
  = Some (Raised e,
          mkState (console st ++ banner_lines)%list (reads st) (ticks st)
                  (terminate_requests st)) /\
  main w fuel = Some (exit_status (Raised e), mkState banner_lines 0 0 0).
Proof.
  intros Hpopen. unfold main, monitor_camera.
  rewrite !banner_run, Hpopen. now split.
Qed.

Lemma X2_witness_log_command_missing :
  let w := mkWorld (Some (Exception "No such file or directory: 'log'"))
                   (stream_of []) sample_clock None in
  monitor_camera w 0 initial_state
  = Some (Raised (Exception "No such file or directory: 'log'"),
          mkState banner_lines 0 0 0) /\
  main w 0 = Some (1, mkState banner_lines 0 0 0).
Proof.
  apply (X2_popen_failure_is_not_handled
           (mkWorld (Some (Exception "No such file or directory: 'log'"))
                    (stream_of []) sample_clock None)
           (Exception "No such file or directory: 'log'") 0 initial_state).
  reflexivity.
Defined.

(** ** What every run that ends has done *)

(** X3: in every run of [monitor_camera] that ends, however it ends and
    whatever the stream, the console is the one before the run, then the
    three banner lines, then whatever the run printed after them: the
    banner comes first and nothing printed is ever taken back. *)
Theorem X3_banner_first_and_console_only_grows (w : world) (fuel : nat)
    (st : state) (r : result unit) (st' : state) :
  monitor_camera w fuel st = Some (r, st') ->
  exists rest, console st' = (console st ++ banner_lines ++ rest)%list.
Proof.
  unfold monitor_camera. rewrite banner_run.
  destruct (popen_effect w) as [e|].
  - intros Hrun. injection Hrun as <- <-. now exists [].
  - intros Hrun.
    destruct (monitor_try_cases w fuel _ r st' Hrun)
      as (r0 & st0 & Hloop & Hcase).
    destruct (while_true_frame w fuel _ r0 st0 Hloop)
      as (_ & (new & Hcons) & _ & _).
    simpl in Hcons. rewrite <- app_assoc in Hcons.
    destruct r0 as [u|[|message|code]]; destruct Hcase as [_ ->].
    + now exists new.
    + exists (new ++ [stopping_message])%list. simpl.
      now rewrite Hcons, <- !app_assoc.
    + exists (new ++ [("Error: " ++ message)%string])%list. simpl.
      now rewrite Hcons, <- !app_assoc.
    + now exists new.
Qed.

Lemma X3_witness_banner_then_event :
  exists rest,
    ["earlier output";
     "Starting Camera Monitor for macOS (Insta360 Specific)...";
     "Looking for 'Insta360 Link' session events.";
     "Press Ctrl+C to stop.";
     "[2024-03-04 05:06:07] 🔴 Camera STOPPED (Inactive)"]
    = (["earlier output"] ++ banner_lines ++ rest)%list.
Proof.
  apply (X3_banner_first_and_console_only_grows
           (world_of [Line "Insta360 removeInput:"] None) 2
           (mkState ["earlier output"] 0 0 0) (Ok tt)
           (mkState
              ["earlier output";
               "Starting Camera Monitor for macOS (Insta360 Specific)...";
               "Looking for 'Insta360 Link' session events.";
               "Press Ctrl+C to stop.";
               "[2024-03-04 05:06:07] 🔴 Camera STOPPED (Inactive)"] 2 1 0)).
  reflexivity.
Defined.

(** X4: the read loop never requests termination of the child.  A run of
    the [try] statement that ends has requested it exactly once when the
    loop was left by an interrupt or an [Exception], and not at all when
    the loop ended normally or was left by a [SystemExit]: never twice. *)
Theorem X4_termination_is_requested_by_the_handlers_only (w : world)
    (fuel : nat) (st : state) (r : result unit) (st' : state) :
  monitor_try w fuel st = Some (r, st') ->
  exists r0 st0,
    while_true w fuel st = Some (r0, st0) /\
    terminate_requests st0 = terminate_requests st /\
    terminate_requests st'
    = match r0 with
      | Ok _ => terminate_requests st
      | Raised e => if handled_class e then S (terminate_requests st)
                    else terminate_requests st
      end.
Proof.
  intros Hrun.
  destruct (monitor_try_cases w fuel st r st' Hrun)
    as (r0 & st0 & Hloop & Hcase).
  destruct (while_true_frame w fuel st r0 st0 Hloop) as (Hterm & _).
  exists r0, st0. split; [assumption|]. split; [assumption|].
  destruct r0 as [u|[|message|code]]; destruct Hcase as [_ ->]; simpl;
    now rewrite ?Hterm.
Qed.

Lemma X4_witness_error_after_a_line :
  exists r0 st0,
    while_true (world_of [Line "x"; ReadRaises (Exception "boom")] None) 5
               (mkState [] 0 0 7) = Some (r0, st0) /\
    terminate_requests st0 = 7 /\
    8 = match r0 with
        | Ok _ => 7
        | Raised e => if handled_class e then 8 else 7
        end.
Proof.
  apply (X4_termination_is_requested_by_the_handlers_only
           (world_of [Line "x"; ReadRaises (Exception "boom")] None) 5
           (mkState [] 0 0 7) (Ok tt) (mkState ["Error: boom"] 2 0 8)).
  reflexivity.
Defined.

(** ** A stream that never ends (lines 19 to 22) *)

(** X5: while the child keeps delivering lines (every read returns a line
    that is not empty), the monitor does not return: no fuel is enough for
    [monitor_camera], and so for the script. *)
Theorem X5_endless_stream_never_returns (w : world) (fuel : nat)
    (st : state) :
  popen_effect w = None ->
  (forall n, exists line, stdout_script w n = Line line /\ nonempty line) ->
  monitor_camera w fuel st = None /\ main w fuel = None.
Proof.
  intros Hpopen Hlines.
  assert (Hany : forall st0, monitor_camera w fuel st0 = None).
  { intros st0. unfold monitor_camera. rewrite banner_run, Hpopen.
    unfold monitor_try. now rewrite (while_true_endless w Hlines). }
  split; [apply Hany|]. unfold main. now rewrite Hany.
Qed.

Lemma X5_witness_endless_world :
  monitor_camera endless_world 200 initial_state = None /\
  main endless_world 200 = None.
Proof.
  apply (X5_endless_stream_never_returns endless_world 200 initial_state).
  - reflexivity.
  - intros n. exists "com.apple.cameracapture: tick". now split.
Defined.

(** ** What can leave the [try] statement (lines 18 to 40) *)

(** X6: on every stream, when [terminate] returns normally, a run of the
    [try] statement that ends either returns normally or raises a
    [SystemExit] that some read of the stream raised: no interrupt and no
    [Exception] raised by a read ever leaves it. *)
Theorem X6_only_system_exit_leaves_the_try (w : world) (fuel : nat)
    (st : state) (r : result unit) (st' : state) :
  terminate_effect w = None ->
  monitor_try w fuel st = Some (r, st') ->
  r = Ok tt \/
  exists code n,
    r = Raised (SystemExit code) /\
    stdout_script w n = ReadRaises (SystemExit code).
Proof.
  intros Hterm Hrun.
  destruct (monitor_try_cases w fuel st r st' Hrun)
    as (r0 & st0 & Hloop & Hcase).
  destruct (while_true_frame w fuel st r0 st0 Hloop) as (_ & _ & _ & Hexn).
  unfold terminate_result in Hcase. rewrite Hterm in Hcase.
  destruct r0 as [u|[|message|code]]; destruct Hcase as [-> _];
    try (now left).
  right. destruct (Hexn _ eq_refl) as (n & _ & Hraise).
  now exists code, n.
Qed.

Lemma X6_witness_interrupt_is_absorbed :
  @Ok unit tt = Ok tt \/
  exists code n,
    @Ok unit tt = Raised (SystemExit code) /\
    stdout_script (world_of [ReadRaises KeyboardInterrupt] None) n
    = ReadRaises (SystemExit code).
Proof.
  apply (X6_only_system_exit_leaves_the_try
           (world_of [ReadRaises KeyboardInterrupt] None) 1 initial_state
           (Ok tt) (mkState [stopping_message] 1 0 1));
    reflexivity.
Defined.



(** ** The console line determines the event and the second *)

Lemma snoc_inj (a b : string) (x y : ascii) :
  a ++ String x EmptyString = b ++ String y EmptyString -> a = b /\ x = y.
Proof.
  revert b; induction a as [|c a IH]; intros [|d b] H; simpl in H.
  - injection H as ->. now split.
  - injection H as -> H. destruct b; discriminate.
  - injection H as -> H. destruct a; discriminate.
  - injection H as -> H. destruct (IH b H) as [-> ->]. now split.
Qed.

Lemma append_inj_length (a a' b b' : string) :
  String.length a = String.length a' -> a ++ b = a' ++ b' ->
  a = a' /\ b = b'.
Proof.
  revert a'; induction a as [|c a IH]; intros [|c' a'] Hlen H;
    simpl in Hlen; try discriminate.
  - now split.
  - simpl in H. injection H as -> H. injection Hlen as Hlen.
    destruct (IH a' Hlen H) as [-> ->]. now split.
Qed.

Lemma digit_inj (n m : nat) : n < 10 -> m < 10 -> digit n = digit m -> n = m.
Proof.
  intros Hn Hm H. apply (f_equal nat_of_ascii) in H. unfold digit in H.
  rewrite !nat_ascii_embedding in H by lia. lia.
Qed.

Lemma fixed_digits_inj (k : nat) :
  forall n m, n < 10 ^ k -> m < 10 ^ k ->
              fixed_digits k n = fixed_digits k m -> n = m.
Proof.
  induction k as [|k IH]; intros n m Hn Hm H.
  - change (10 ^ 0) with 1 in Hn, Hm. lia.
  - change (fixed_digits (S k) n)
      with (fixed_digits k (n / 10) ++ String (digit (n mod 10)) EmptyString)
      in H.
    change (fixed_digits (S k) m)
      with (fixed_digits k (m / 10) ++ String (digit (m mod 10)) EmptyString)
      in H.
    apply snoc_inj in H as [Hhigh Hlow].
    change (10 ^ S k) with (10 * 10 ^ k) in Hn, Hm.
    assert (Hdiv : n / 10 = m / 10).
    { apply IH; [| |assumption];
        apply Nat.Div0.div_lt_upper_bound; assumption. }
    assert (Hmod : n mod 10 = m mod 10).
    { apply digit_inj; [| |assumption]; apply Nat.mod_upper_bound; lia. }
    rewrite (Nat.div_mod_eq n 10), (Nat.div_mod_eq m 10). lia.
Qed.

Lemma valid_datetime_bounds (t : datetime) :
  valid_datetime t = true ->
  year t < 10 ^ 4 /\ month t < 10 ^ 2 /\ day t < 10 ^ 2 /\
  hour t < 10 ^ 2 /\ minute t < 10 ^ 2 /\ second t < 10 ^ 2.
Proof.
  unfold valid_datetime. rewrite !andb_true_iff, !Nat.leb_le, Nat.ltb_lt.
  intros ((((((((Hy1 & Hy) & Hmo1) & Hmo) & Hd1) & Hd) & Hh) & Hmi) & Hs).
  change (10 ^ 2) with 100. repeat split; try assumption; lia.
Qed.

Lemma timestamp_picture_inj (t1 t2 : datetime) :
  valid_datetime t1 = true -> valid_datetime t2 = true ->
  timestamp_picture t1 = timestamp_picture t2 -> t1 = t2.
Proof.
  intros H1 H2 H.
  apply valid_datetime_bounds in H1 as (Hy1 & Hmo1 & Hd1 & Hh1 & Hmi1 & Hs1).
  apply valid_datetime_bounds in H2 as (Hy2 & Hmo2 & Hd2 & Hh2 & Hmi2 & Hs2).
  unfold timestamp_picture in H.
  apply append_inj_length in H as [Hy H];
    [|now rewrite !length_fixed_digits].
  apply append_inj_length in H as [_ H]; [|reflexivity].
  apply append_inj_length in H as [Hmo H];
    [|now rewrite !length_fixed_digits].
  apply append_inj_length in H as [_ H]; [|reflexivity].
  apply append_inj_length in H as [Hd H];
    [|now rewrite !length_fixed_digits].
  apply append_inj_length in H as [_ H]; [|reflexivity].
  apply append_inj_length in H as [Hh H];
    [|now rewrite !length_fixed_digits].
  apply append_inj_length in H as [_ H]; [|reflexivity].
  apply append_inj_length in H as [Hmi H];
    [|now rewrite !length_fixed_digits].
  apply append_inj_length in H as [_ Hs]; [|reflexivity].
  apply fixed_digits_inj in Hy, Hmo, Hd, Hh, Hmi, Hs; try assumption.
  destruct t1, t2; simpl in *; congruence.
Qed.

Lemma template_inj (t1 t2 : datetime) (e1 e2 : event) :
  valid_datetime t1 = true -> valid_datetime t2 = true ->
  template (strftime t1) e1 = template (strftime t2) e2 ->
  e1 = e2 /\ t1 = t2.
Proof.
  intros H1 H2 H.
  rewrite (strftime_picture t1 H1), (strftime_picture t2 H2) in H.
  unfold template in H.
  apply append_inj_length in H as [_ H]; [|reflexivity].
  apply append_inj_length in H as [Hts Hrest];
    [|now rewrite !length_timestamp_picture].
  split.
  - destruct e1, e2; try reflexivity; discriminate.
  - now apply timestamp_picture_inj.
Qed.

Lemma list_neq_snoc {A : Type} (l : list A) (x : A) : l <> (l ++ [x])%list.
Proof.
  intros H. apply (f_equal (@List.length A)) in H.
  rewrite length_app in H. simpl in H. lia.
Qed.

(** X8: the console line of an event can be read back.  If handling a
    line at one moment and handling a line at another moment make the loop
    body print the same text, then the two lines carry the same event and
    the clock showed the same second both times: no two different
    (event, second) pairs share a console line. *)
Theorem X8_console_line_determines_event_and_second (w : world)
    (l1 l2 : string) (st1 st2 : state) (text : string) :
  valid_datetime (clock w (ticks st1)) = true ->
  valid_datetime (clock w (ticks st2)) = true ->
  console (snd (loop_body w l1 st1)) = (console st1 ++ [text])%list ->
  console (snd (loop_body w l2 st2)) = (console st2 ++ [text])%list ->
  classify l1 = classify l2 /\ clock w (ticks st1) = clock w (ticks st2).
Proof.
  intros Hv1 Hv2. rewrite !loop_body_classify.
  destruct (classify l1) as [e1|]; simpl;
    [|intros H; now apply list_neq_snoc in H].
  destruct (classify l2) as [e2|]; simpl;
    [|intros _ H; now apply list_neq_snoc in H].
  intros Ht1 Ht2.
  apply app_inv_head in Ht1. apply app_inv_head in Ht2.
  injection Ht1 as Ht1. injection Ht2 as Ht2.
  destruct (template_inj _ _ e1 e2 Hv1 Hv2 (eq_trans Ht1 (eq_sym Ht2)))
    as [-> Hclock].
  now split.
Qed.

Lemma X8_witness_same_line_same_reading :
  classify "Insta360 addInput: a" = classify "addInput: Insta360 b" /\
  sample_clock 4 = sample_clock 4.
Proof.
  apply (X8_console_line_determines_event_and_second (world_of [] None)
           "Insta360 addInput: a" "addInput: Insta360 b"
           (mkState [] 0 4 0) (mkState ["x"] 9 4 1)
           "[2024-03-04 05:06:11] 🟢 Camera STARTED (Active)");
    reflexivity.
Defined.

(** ** The clock is read once for each line the loop prints *)

(** X9: on every stream and however the loop is left, the loop has read
    the clock exactly as many times as it has printed lines: once for each
    event, and never for a line it ignores, for the end of the stream or
    for a read that raises. *)
Theorem X9_one_clock_reading_per_printed_line (w : world) (fuel : nat) :
  forall (st : state) (r : result unit) (st' : state),
    while_true w fuel st = Some (r, st') ->
    exists new,
      console st' = (console st ++ new)%list /\
      ticks st' = ticks st + List.length new.
Proof.
  induction fuel as [|fuel IH]; intros st r st' Hrun; [discriminate|].
  simpl in Hrun. unfold readline in Hrun.
  destruct (stdout_script w (reads st)) as [text|e0].
  - fold (after_read st) in Hrun. destruct (is_empty text).
    + injection Hrun as <- <-. exists []. simpl.
      now rewrite app_nil_r, Nat.add_0_r.
    + rewrite loop_body_classify in Hrun.
      destruct (classify text) as [e|].
      * destruct (IH _ r st' Hrun) as (new & Hcons & Hticks).
        exists (template (strftime (clock w (ticks st))) e :: new).
        simpl in Hcons, Hticks. rewrite Hcons, Hticks, <- app_assoc.
        simpl. split; [reflexivity | lia].
      * destruct (IH _ r st' Hrun) as (new & Hcons & Hticks).
        now exists new.
  - injection Hrun as <- <-. exists []. simpl.
    now rewrite app_nil_r, Nat.add_0_r.
Qed.

Lemma X9_witness_two_events_one_ignored :
  exists new,
    ["[2024-03-04 05:06:07] 🟢 Camera STARTED (Active)";
     "[2024-03-04 05:06:08] 🔴 Camera STOPPED (Inactive)"]
    = ([] ++ new)%list /\
    2 = 0 + List.length new.
Proof.
  apply (X9_one_clock_reading_per_printed_line
           (world_of [Line "Insta360 addInput:"; Line "Logitech addInput:";
                      Line "Insta360 removeInput:"] None) 4
           initial_state (Ok tt)
           (mkState ["[2024-03-04 05:06:07] 🟢 Camera STARTED (Active)";
                     "[2024-03-04 05:06:08] 🔴 Camera STOPPED (Inactive)"]
                    4 2 0)).
  reflexivity.
Defined.

(** ** Text around a matching line *)

Lemma substring_embedded (p line pre post : string) :
  Substring p line -> Substring p (pre ++ line ++ post).
Proof.
  intros (a & b & ->). exists (pre ++ a), (b ++ post).
  now rewrite !append_assoc.
Qed.

(** X10: what [log stream] writes around the message does not hide an
    event.  When a line holds the device name and one of the two input
    markers, the loop body still prints exactly one line for it after any
    text is put before and after it: the STARTED line when "addInput:"
    occurs anywhere in the longer line, and the STOPPED line when it does
    not.  So a line with "addInput:" keeps printing STARTED; a line that
    printed STOPPED may print STARTED in the longer line, also when
    "addInput:" only arises where the added text meets the line. *)
Theorem X10_event_survives_surrounding_text (w : world)
    (line pre post : string) (st : state) :
  Substring "Insta360" line ->
  Substring "addInput:" line \/ Substring "removeInput:" line ->
  (Substring "addInput:" (pre ++ line ++ post) ->
   loop_body w (pre ++ line ++ post) st =
     (Ok tt,
      mkState (console st
               ++ [("[" ++ strftime (clock w (ticks st))
                    ++ "] 🟢 Camera STARTED (Active)")%string])%list
              (reads st) (S (ticks st)) (terminate_requests st))) /\
  (~ Substring "addInput:" (pre ++ line ++ post) ->
   loop_body w (pre ++ line ++ post) st =
     (Ok tt,
      mkState (console st
               ++ [("[" ++ strftime (clock w (ticks st))
                    ++ "] 🔴 Camera STOPPED (Inactive)")%string])%list
              (reads st) (S (ticks st)) (terminate_requests st))) /\
  (Substring "addInput:" line ->
   Substring "addInput:" (pre ++ line ++ post)).
Proof.
  intros Hdev Hmark.
  apply (substring_embedded _ _ pre post) in Hdev.
  split; [|split].
  - intros Hadd. rewrite loop_body_classify.
    now rewrite (proj2 (classify_started _) (conj Hdev Hadd)).
  - intros Hadd. destruct Hmark as [Hadd'|Hrem].
    + now apply (substring_embedded _ _ pre post) in Hadd'.
    + apply (substring_embedded _ _ pre post) in Hrem.
      rewrite loop_body_classify.
      now rewrite (proj2 (classify_stopped _) (conj Hdev (conj Hrem Hadd))).
  - apply substring_embedded.
Qed.

Lemma X10_witness_marker_across_the_seam :
  loop_body (world_of [] None)
            ("add" ++ "Input: Insta360 removeInput:" ++ " (Zoom)")
            initial_state =
    (Ok tt,
     mkState ["[2024-03-04 05:06:07] 🟢 Camera STARTED (Active)"] 0 1 0).
Proof.
  apply (proj1 (X10_event_survives_surrounding_text (world_of [] None)
                  "Input: Insta360 removeInput:" "add" " (Zoom)"
                  initial_state
                  (proj1 (contains_spec "Insta360"
                            "Input: Insta360 removeInput:") eq_refl)
                  (or_intror
                     (proj1 (contains_spec "removeInput:"
                               "Input: Insta360 removeInput:") eq_refl)))).
  apply contains_spec; reflexivity.
Defined.
